(** * Form builder page (src/src/app/page.tsx, first component)

    Shallow embedding of the two-stage form of [Home]: the input-creator
    form validated by [inputCreatorSchema], the field array managed with
    react-hook-form's [useFieldArray] ([append], [remove], [swap]), and the
    created form validated by [createdFormSchema] whose submit handler
    [onCreatedFormSubmit] shows the answers in a toast.

    Rendering is modelled by [rendered]: a UI event can only come from a
    control that the JSX renders in the current state. *)

From stdpp Require Import base list strings.
From Stdlib Require String.
Open Scope string_scope.
Open Scope list_scope.

(** ** Data *)

(** [INPUT_TYPES = ["text", "number", "email", "password"] as const] *)
Inductive input_type := text | number | email | password.

Definition INPUT_TYPES : list input_type := [text; number; email; password].

Definition input_type_name (t : input_type) : string :=
  match t with
  | text => "text"
  | number => "number"
  | email => "email"
  | password => "password"
  end.

(** The union of [z.literal] schemas: a raw string parses to a kind iff it is
    one of the four literals. *)
Definition parse_input_type (s : string) : option input_type :=
  if String.eqb s "text" then Some text
  else if String.eqb s "number" then Some number
  else if String.eqb s "email" then Some email
  else if String.eqb s "password" then Some password
  else None.

(** Raw values held by [inputCreatorForm]; [None] is an undefined field. *)
Record InputCreatorValues := {
  raw_label : option string;
  raw_defaultValue : option string;
  raw_type : option string
}.

(** [InputCreatorFormFields = z.infer<typeof inputCreatorSchema>] *)
Record InputCreatorFormFields := {
  label_in : string;
  defaultValue : option string;
  type_in : input_type
}.

Inductive creator_field := F_label | F_defaultValue | F_type.

(** One element of the [inputs] array of the created form. *)
Record Input := {
  label : string;
  value : string;
  type : input_type
}.

(** [CreatedFormFields = z.infer<typeof createdFormSchema>] *)
Record CreatedFormFields := { inputs : list Input }.

Inductive created_field := G_label | G_value | G_type.

(** ** Validation *)

(** [z.string().min(1)] on a possibly undefined value. *)
Definition string_min1 (v : option string) : option string :=
  match v with
  | Some s => if (0 <? String.length s)%nat then Some s else None
  | None => None
  end.

(** [inputCreatorSchema.safeParse]: every field is checked, all issues are
    collected (zod does not stop at the first failing key). *)
Definition inputCreatorSchema (v : InputCreatorValues)
    : InputCreatorFormFields + list creator_field :=
  let l := string_min1 (raw_label v) in
  let t := match raw_type v with
           | None => Some text                       (* .default("text") *)
           | Some s => parse_input_type s
           end in
  match l, t with
  | Some l, Some t =>
      inl {| label_in := l; defaultValue := raw_defaultValue v; type_in := t |}
  | _, _ =>
      inr ((if l then [] else [F_label]) ++ (if t then [] else [F_type]))%list
  end.

(** [createdFormSchema]: per element, [label: z.string().min(1)],
    [value: z.string()], [type: z.enum(INPUT_TYPES)].  The value is always a
    string and the type always one of the enumeration in this model, so
    only the label can fail; issues are reported per index. *)
Fixpoint created_issues (i : nat) (l : list Input) : list (nat * created_field) :=
  match l with
  | [] => []
  | x :: r =>
      ((if (0 <? String.length (label x))%nat then [] else [(i, G_label)])
        ++ created_issues (S i) r)%list
  end.

Definition createdFormSchema (v : CreatedFormFields)
    : CreatedFormFields + list (nat * created_field) :=
  match created_issues 0 (inputs v) with
  | [] => inl v
  | es => inr es
  end.

(** ** Field array operations of [useFieldArray] *)

(** [append(value)]: push at the end. *)
Definition append (l : list Input) (x : Input) : list Input := l ++ [x].

(** [remove(index)]: a [splice(index, 1)] of the array. *)
Definition remove (l : list Input) (i : nat) : list Input := delete i l.

(** [swap(indexA, indexB)] runs [swapArrayAt]:
    [data[indexA] = [data[indexB], (data[indexB] = data[indexA])][0]].
    Modelled for indices inside the array (the only ones the page passes);
    [None] stands for indices outside it, which this model leaves open. *)
Definition swap (l : list Input) (a b : nat) : option (list Input) :=
  match l !! a, l !! b with
  | Some x, Some y => Some (<[a:=y]> (<[b:=x]> l))
  | _, _ => None
  end.

(** Updating [inputs.${index}.value] from the generated [Input]. *)
Definition updateValue (l : list Input) (i : nat) (s : string) : list Input :=
  match l !! i with
  | Some x => <[i:={| label := label x; value := s; type := type x |}]> l
  | None => l
  end.

(** ** Page state and handlers *)

Record State := {
  creator : InputCreatorValues;
  creatorErrors : list creator_field;
  fields : list Input;
  createdErrors : list (nat * created_field)
}.

(** [useForm({ defaultValues: { type: "text" } })] and an empty field array. *)
Definition init : State := {|
  creator := {| raw_label := None; raw_defaultValue := None; raw_type := Some "text" |};
  creatorErrors := [];
  fields := [];
  createdErrors := []
|}.

(** [inputCreatorForm.reset({ label: "", defaultValue: "" })]: the form
    values become exactly the object passed, so [type] is undefined again and
    falls back to the schema default ["text"] at the next parse. *)
Definition creator_reset : InputCreatorValues :=
  {| raw_label := Some ""; raw_defaultValue := Some ""; raw_type := None |}.

(** [onCreateInput]. *)
Definition onCreateInput (data : InputCreatorFormFields) (st : State) : State := {|
  creator := creator_reset;
  creatorErrors := creatorErrors st;
  fields := append (fields st)
              {| label := label_in data;
                 value := default "" (defaultValue data);   (* ?? "" *)
                 type := type_in data |};
  createdErrors := createdErrors st
|}.

(** [formatCreatedFormData], as the text of the rendered paragraph:
    ["label: value"] pieces separated by [", "]. *)
Fixpoint format_from (first : bool) (l : list Input) : string :=
  match l with
  | [] => ""
  | x :: r =>
      ((if first then "" else ", ") ++ label x ++ ": " ++ value x
        ++ format_from false r)%string
  end.

Definition formatCreatedFormData (data : CreatedFormFields) : string :=
  format_from true (inputs data).

(** The toast shown by [onCreatedFormSubmit]. *)
Record Toast := { toast_title : string; toast_body : string; toast_data : CreatedFormFields }.

Definition onCreatedFormSubmit (data : CreatedFormFields) : Toast :=
  {| toast_title := "Answers submitted!";
     toast_body := formatCreatedFormData data;
     toast_data := data |}.

(** [inputCreatorForm.handleSubmit(onCreateInput)]. *)
Definition submitCreator (st : State) : State :=
  match inputCreatorSchema (creator st) with
  | inl data =>
      onCreateInput data
        {| creator := creator st; creatorErrors := [];
           fields := fields st; createdErrors := createdErrors st |}
  | inr es =>
      {| creator := creator st; creatorErrors := es;
         fields := fields st; createdErrors := createdErrors st |}
  end.

(** [createdForm.handleSubmit(onCreatedFormSubmit)] on the current values. *)
Definition submit (st : State) : State * option Toast :=
  match createdFormSchema {| inputs := fields st |} with
  | inl data =>
      ({| creator := creator st; creatorErrors := creatorErrors st;
          fields := fields st; createdErrors := [] |},
       Some (onCreatedFormSubmit data))
  | inr es =>
      ({| creator := creator st; creatorErrors := creatorErrors st;
          fields := fields st; createdErrors := es |}, None)
  end.

Definition with_fields (st : State) (l : list Input) : State :=
  {| creator := creator st; creatorErrors := creatorErrors st;
     fields := l; createdErrors := createdErrors st |}.

Definition with_creator (st : State) (c : InputCreatorValues) : State :=
  {| creator := c; creatorErrors := creatorErrors st;
     fields := fields st; createdErrors := createdErrors st |}.

(** ** Events and rendered controls *)

Inductive event :=
  | SetLabel (s : string)          (* typing in the Label input *)
  | SetDefaultValue (s : string)   (* typing in the Default value input *)
  | SetType (t : input_type)       (* choosing a radio item of INPUT_TYPES *)
  | AddInput                       (* the Add button *)
  | SetValue (i : nat) (s : string)  (* typing in generated input i *)
  | RemoveAt (i : nat)             (* Remove button of row i *)
  | MoveAt (i : nat)               (* Move down / Move up button of row i *)
  | SubmitCreated.                 (* Submit button of the created form *)

(** Which controls the JSX renders: one row per element of [inputs], the
    move button only under [inputs.length > 1], the Submit button only under
    [inputs.length > 0]. *)
Definition rendered (st : State) (e : event) : bool :=
  let n := length (fields st) in
  match e with
  | SetLabel _ | SetDefaultValue _ | SetType _ | AddInput => true
  | SetValue i _ | RemoveAt i => (i <? n)%nat
  | MoveAt i => (1 <? n)%nat && (i <? n)%nat
  | SubmitCreated => (0 <? n)%nat
  end.

(** The row's move handler: [swap(index, index === 0 ? inputs.length - 1 : index - 1)]. *)
Definition move_target (n i : nat) : nat := if (i =? 0)%nat then n - 1 else i - 1.

(** One UI event; [None] when the event's control is not rendered (or the
    swap leaves the modelled range). The second component is the toast. *)
Definition step (st : State) (e : event) : option (State * option Toast) :=
  if rendered st e then
    match e with
    | SetLabel s =>
        Some (with_creator st {| raw_label := Some s;
                                 raw_defaultValue := raw_defaultValue (creator st);
                                 raw_type := raw_type (creator st) |}, None)
    | SetDefaultValue s =>
        Some (with_creator st {| raw_label := raw_label (creator st);
                                 raw_defaultValue := Some s;
                                 raw_type := raw_type (creator st) |}, None)
    | SetType t =>
        Some (with_creator st {| raw_label := raw_label (creator st);
                                 raw_defaultValue := raw_defaultValue (creator st);
                                 raw_type := Some (input_type_name t) |}, None)
    | AddInput => Some (submitCreator st, None)
    | SetValue i s => Some (with_fields st (updateValue (fields st) i s), None)
    | RemoveAt i => Some (with_fields st (remove (fields st) i), None)
    | MoveAt i =>
        match swap (fields st) i (move_target (length (fields st)) i) with
        | Some l => Some (with_fields st l, None)
        | None => None
        end
    | SubmitCreated => Some (submit st)
    end
  else None.

(** Running a sequence of events from a state. *)
Fixpoint run (st : State) (es : list event) : option (State * list Toast) :=
  match es with
  | [] => Some (st, [])
  | e :: r =>
      match step st e with
      | Some (st', o) =>
          match run st' r with
          | Some (st'', ts) => Some (st'', option_list o ++ ts)%list
          | None => None
          end
      | None => None
      end
  end.

(** States reachable from [init] by events of rendered controls. *)
Inductive reachable : State -> Prop :=
  | reach_init : reachable init
  | reach_step st e st' o : reachable st -> step st e = Some (st', o) -> reachable st'.

(** ** Presentation helpers *)

(** [String.prototype.toUpperCase] on one character of ASCII text: the
    letters [a]..[z] become [A]..[Z], every other ASCII character is kept.
    Strings are modelled as ASCII text. *)
Definition toUpperCase_char (c : Ascii.ascii) : Ascii.ascii :=
  let n := Ascii.nat_of_ascii c in
  if (97 <=? n)%nat && (n <=? 122)%nat then Ascii.ascii_of_nat (n - 32) else c.

(** [capitalizeFirstLetter(string)]:
    [string.charAt(0).toUpperCase() + string.slice(1)]; on [""] both
    [charAt(0)] and [slice(1)] are [""]. *)
Definition capitalizeFirstLetter (s : string) : string :=
  match s with
  | EmptyString => ""
  | String c r => String (toUpperCase_char c) r
  end.

(** Every character of [s] is an ASCII character (code below 128). *)
Fixpoint is_ascii (s : string) : bool :=
  match s with
  | EmptyString => true
  | String c r => (Ascii.nat_of_ascii c <? 128)%nat && is_ascii r
  end.

(** Caption of a row's move button: [index === 0 ? "Move down" : "Move up"]. *)
Definition move_caption (i : nat) : string :=
  if (i =? 0)%nat then "Move down" else "Move up".

(** ** Auxiliary notions used in the statements *)

(** [l'] is [l] with the elements at [a] and [b] exchanged. *)
Definition exchanged (l l' : list Input) (a b : nat) : Prop :=
  length l' = length l /\ l' !! a = l !! b /\ l' !! b = l !! a /\
  forall j, j <> a -> j <> b -> l' !! j = l !! j.

Definition label_ok (x : Input) : Prop := (0 < String.length (label x))%nat.

(** ** Helper lemmas *)

Lemma string_length_0 (s : string) : String.length s = 0%nat <-> s = "".
Proof. destruct s; simpl; split; congruence. Qed.

Lemma string_min1_Some (v : option string) (s : string) :
  string_min1 v = Some s -> v = Some s /\ (0 < String.length s)%nat.
Proof.
  destruct v as [s'|]; simpl; [|discriminate].
  destruct (Nat.ltb_spec 0 (String.length s')); intros E; inversion E; subst; auto.
Qed.

Lemma created_issues_ok (k : nat) (l : list Input) :
  Forall label_ok l -> created_issues k l = [].
Proof.
  revert k. induction l as [|x r IH]; intros k Hl; simpl; [done|].
  inversion Hl as [|? ? Hx Hr]; subst. unfold label_ok in Hx.
  destruct (Nat.ltb_spec 0 (String.length (label x))); [|lia].
  simpl. by apply IH.
Qed.

Lemma created_issues_In (k : nat) (l : list Input) (i : nat) (f : created_field) :
  In (i, f) (created_issues k l) <->
  f = G_label /\ (k <= i)%nat /\ exists x, l !! (i - k)%nat = Some x /\ label x = "".
Proof.
  revert k. induction l as [|x r IH]; intros k; simpl.
  - split; [done|]. intros (_ & _ & y & Hy & _). by rewrite lookup_nil in Hy.
  - rewrite in_app_iff, IH.
    destruct (Nat.ltb_spec 0 (String.length (label x))) as [Hx|Hx]; simpl.
    + split.
      * intros [[]|(-> & Hk & y & Hy & Hly)]. split; [done|]. split; [lia|].
        exists y. replace (i - k)%nat with (S (i - S k)) by lia. done.
      * intros (-> & Hk & y & Hy & Hly). right. split; [done|].
        destruct (decide (i = k)) as [->|Hne].
        -- rewrite Nat.sub_diag in Hy. simpl in Hy. inversion Hy; subst.
           rewrite Hly in Hx. simpl in Hx. lia.
        -- split; [lia|]. exists y. replace (i - k)%nat with (S (i - S k)) in Hy by lia.
           done.
    + assert (Hl : label x = "") by (apply string_length_0; lia).
      split.
      * intros [[[= -> ->]|[]]|(-> & Hk & y & Hy & Hly)].
        -- split; [done|]. split; [lia|]. exists x. by rewrite Nat.sub_diag.
        -- split; [done|]. split; [lia|]. exists y.
           replace (i - k)%nat with (S (i - S k)) by lia. done.
      * intros (-> & Hk & y & Hy & Hly).
        destruct (decide (i = k)) as [->|Hne]; [left; by left|].
        right. split; [done|]. split; [lia|]. exists y.
        replace (i - k)%nat with (S (i - S k)) in Hy by lia. done.
Qed.

Lemma updateValue_labels (l : list Input) (i : nat) (s : string) :
  Forall label_ok l -> Forall label_ok (updateValue l i s).
Proof.
  intros Hl. unfold updateValue. destruct (l !! i) as [x|] eqn:E; [|done].
  apply Forall_insert; [done|]. unfold label_ok; simpl.
  exact (Forall_lookup_1 _ _ _ _ Hl E).
Qed.

Lemma swap_labels (l l' : list Input) (a b : nat) :
  Forall label_ok l -> swap l a b = Some l' -> Forall label_ok l'.
Proof.
  unfold swap. intros Hl.
  destruct (l !! a) as [x|] eqn:Ea; [|discriminate].
  destruct (l !! b) as [y|] eqn:Eb; [|discriminate].
  intros [= <-]. apply Forall_insert; [apply Forall_insert|].
  - done.
  - exact (Forall_lookup_1 _ _ _ _ Hl Ea).
  - exact (Forall_lookup_1 _ _ _ _ Hl Eb).
Qed.

Lemma submitCreator_labels (st : State) :
  Forall label_ok (fields st) -> Forall label_ok (fields (submitCreator st)).
Proof.
  intros Hl. unfold submitCreator, inputCreatorSchema.
  destruct (string_min1 (raw_label (creator st))) as [s|] eqn:El;
    destruct (match raw_type (creator st) with
              | Some s0 => parse_input_type s0 | None => Some text end);
    simpl; try done.
  unfold append. apply Forall_app. split; [done|].
  apply Forall_singleton. unfold label_ok; simpl.
  apply (string_min1_Some _ _ El).
Qed.

Lemma step_labels (st st' : State) (e : event) (o : option Toast) :
  Forall label_ok (fields st) -> step st e = Some (st', o) ->
  Forall label_ok (fields st').
Proof.
  intros Hl. unfold step. destruct (rendered st e); [|discriminate].
  destruct e; simpl.
  - intros [= <- _]. done.
  - intros [= <- _]. done.
  - intros [= <- _]. done.
  - intros [= <- _]. by apply submitCreator_labels.
  - intros [= <- _]. by apply updateValue_labels.
  - intros [= <- _]. by apply Forall_delete.
  - destruct (swap _ _ _) as [l|] eqn:E; [|discriminate].
    intros [= <- _]. simpl. by apply (swap_labels _ _ _ _ Hl E).
  - unfold submit. destruct (createdFormSchema _); intros [= <- _]; done.
Qed.

(** Every descriptor of a reachable field list has a non-empty label. *)
Lemma reachable_labels (st : State) :
  reachable st -> Forall label_ok (fields st).
Proof.
  induction 1 as [|st e st' o _ IH Hs]; [constructor|].
  exact (step_labels _ _ _ _ IH Hs).
Qed.

Lemma swap_exchanged (l : list Input) (a b : nat) :
  (a < length l)%nat -> (b < length l)%nat ->
  exists l', swap l a b = Some l' /\ exchanged l l' a b.
Proof.
  intros Ha Hb. unfold swap.
  destruct (lookup_lt_is_Some_2 l a Ha) as [x Ex].
  destruct (lookup_lt_is_Some_2 l b Hb) as [y Ey].
  rewrite Ex, Ey. eexists. split; [reflexivity|].
  repeat split.
  - by rewrite !length_insert.
  - rewrite list_lookup_insert_eq by (rewrite length_insert; lia). done.
  - destruct (decide (a = b)) as [->|Hne].
    + rewrite list_lookup_insert_eq by (rewrite length_insert; lia).
      congruence.
    + rewrite list_lookup_insert_ne by done.
      rewrite list_lookup_insert_eq by lia. done.
  - intros j Hja Hjb.
    rewrite list_lookup_insert_ne by congruence.
    rewrite list_lookup_insert_ne by congruence. done.
Qed.

Lemma step_submit (st : State) :
  fields st <> [] -> step st SubmitCreated = Some (submit st).
Proof.
  intros Hne. unfold step, rendered.
  destruct (fields st) as [|x r] eqn:E; [done|]. simpl. done.
Qed.

Lemma submit_ok (st : State) :
  Forall label_ok (fields st) ->
  submit st = ({| creator := creator st; creatorErrors := creatorErrors st;
                  fields := fields st; createdErrors := [] |},
               Some (onCreatedFormSubmit {| inputs := fields st |})).
Proof.
  intros Hl. unfold submit, createdFormSchema. simpl.
  by rewrite (created_issues_ok 0 _ Hl).
Qed.

Lemma run_reachable (st : State) (es : list event) (st' : State) (ts : list Toast) :
  reachable st -> run st es = Some (st', ts) -> reachable st'.
Proof.
  revert st ts. induction es as [|e r IH]; intros st ts Hr; simpl.
  - by intros [= <- _].
  - destruct (step st e) as [[s1 o]|] eqn:E; [|discriminate].
    destruct (run s1 r) as [[s2 ts2]|] eqn:E2; [|discriminate].
    intros [= <- _]. apply (IH s1 ts2); [|done].
    exact (reach_step _ _ _ _ Hr E).
Qed.

(** ** Claims *)

(** C1 (as stated, refuted): submit on a field list with an empty value is
    not aborted.  Adding a field "Name" with no default value and submitting
    at once shows the toast with the empty answer and records no error. *)
Lemma C1_empty_value_submitted :
  exists st,
    run init [SetLabel "Name"; AddInput; SubmitCreated] =
      Some (st, [onCreatedFormSubmit
                   {| inputs := [{| label := "Name"; value := ""; type := text |}] |}])
    /\ createdErrors st = [].
Proof. eexists. split; reflexivity. Qed.

(** C1 (amended): [createdFormSchema] only requires non-empty labels, not
    non-empty values.  On every reachable state with a rendered Submit
    button, submitting produces the record of the current field list,
    whatever its values; and for any field list the validation issues are
    exactly the label errors of the elements whose label is empty. *)
Lemma C1_submit_checks_labels_only (st : State) :
  reachable st -> fields st <> [] ->
  step st SubmitCreated =
    Some ({| creator := creator st; creatorErrors := creatorErrors st;
             fields := fields st; createdErrors := [] |},
          Some (onCreatedFormSubmit {| inputs := fields st |}))
  /\ (forall (l : list Input) i f,
       In (i, f) (created_issues 0 l) <->
       f = G_label /\ exists x, l !! i = Some x /\ label x = "")
  /\ (forall st0, fields st0 <> [] ->
       (exists x, In x (fields st0) /\ label x = "") ->
       exists es,
         step st0 SubmitCreated =
           Some ({| creator := creator st0; creatorErrors := creatorErrors st0;
                    fields := fields st0; createdErrors := es |}, None) /\
         es <> [] /\
         (forall i f, In (i, f) es <->
            f = G_label /\ exists x, fields st0 !! i = Some x /\ label x = "")).
Proof.
  intros Hr Hne.
  assert (Hiss : forall (l : list Input) i f,
       In (i, f) (created_issues 0 l) <->
       f = G_label /\ exists x, l !! i = Some x /\ label x = "").
  { intros l i f. rewrite created_issues_In, Nat.sub_0_r.
    split; [intros (? & _ & ?); auto | intros (? & ?); split; [done|split; [lia|done]]]. }
  split; [|split; [exact Hiss|]].
  - rewrite step_submit by done. f_equal. apply submit_ok. by apply reachable_labels.
  - intros st0 Hne0 (x & Hx & Hlx).
    apply list_elem_of_In, list_elem_of_lookup in Hx as [i Hi].
    assert (Hin : In (i, G_label) (created_issues 0 (fields st0)))
      by (apply Hiss; eauto).
    exists (created_issues 0 (fields st0)).
    split; [|split; [by intros E; rewrite E in Hin|apply Hiss]].
    rewrite step_submit by done. unfold submit, createdFormSchema. simpl.
    destruct (created_issues 0 (fields st0)) as [|e es] eqn:E; [done|]. reflexivity.
Qed.

Definition one_field_state : State :=
  submitCreator (with_creator init {| raw_label := Some "Name"; raw_defaultValue := None;
                                      raw_type := Some "text" |}).

Lemma one_field_state_reachable : reachable one_field_state.
Proof.
  apply (run_reachable init [SetLabel "Name"; AddInput] _ [] reach_init).
  reflexivity.
Qed.

Definition empty_label_state : State :=
  with_fields init [{| label := ""; value := "x"; type := text |}].

Lemma C1_submit_checks_labels_only_witness :
  reachable one_field_state /\
  fields one_field_state = [{| label := "Name"; value := ""; type := text |}] /\
  step one_field_state SubmitCreated =
    Some ({| creator := creator one_field_state;
             creatorErrors := creatorErrors one_field_state;
             fields := fields one_field_state; createdErrors := [] |},
          Some (onCreatedFormSubmit {| inputs := fields one_field_state |})) /\
  exists es,
    step empty_label_state SubmitCreated =
      Some ({| creator := creator empty_label_state;
               creatorErrors := creatorErrors empty_label_state;
               fields := fields empty_label_state; createdErrors := es |}, None) /\
    es <> [] /\
    (forall i f, In (i, f) es <->
       f = G_label /\ exists x, fields empty_label_state !! i = Some x /\ label x = "").
Proof.
  assert (Hne : fields one_field_state <> []) by discriminate.
  destruct (C1_submit_checks_labels_only _ one_field_state_reachable Hne)
    as (H1 & _ & H3).
  split; [exact one_field_state_reachable|]. split; [reflexivity|].
  split; [exact H1|].
  apply H3; [discriminate|].
  exists {| label := ""; value := "x"; type := text |}. split; [left; reflexivity|reflexivity].
Defined.

(** C2: with at least two rows, the move button of row 0 exchanges the
    descriptors at 0 and N-1, and the one of row k (0 < k < N) exchanges k
    and k-1; every other position and the rest of the page state are kept. *)
Lemma C2_move_swaps (st : State) :
  (2 <= length (fields st))%nat ->
  (exists l', step st (MoveAt 0) = Some (with_fields st l', None) /\
              exchanged (fields st) l' 0 (length (fields st) - 1)) /\
  (forall k, (0 < k < length (fields st))%nat ->
     exists l', step st (MoveAt k) = Some (with_fields st l', None) /\
                exchanged (fields st) l' k (k - 1)).
Proof.
  intros Hn. split.
  - destruct (swap_exchanged (fields st) 0 (length (fields st) - 1)) as (l' & E & Hx);
      [lia|lia|].
    exists l'. split; [|done]. unfold step, rendered.
    destruct (Nat.ltb_spec 1 (length (fields st))); [|lia].
    destruct (Nat.ltb_spec 0 (length (fields st))); [|lia]. simpl.
    unfold move_target. simpl. by rewrite E.
  - intros k Hk.
    destruct (swap_exchanged (fields st) k (k - 1)) as (l' & E & Hx); [lia|lia|].
    exists l'. split; [|done]. unfold step, rendered.
    destruct (Nat.ltb_spec 1 (length (fields st))); [|lia].
    destruct (Nat.ltb_spec k (length (fields st))); [|lia]. simpl.
    unfold move_target. destruct (Nat.eqb_spec k 0); [lia|]. by rewrite E.
Qed.

Definition three_field_state : State :=
  with_fields init [{| label := "A"; value := ""; type := text |};
                    {| label := "B"; value := ""; type := text |};
                    {| label := "C"; value := ""; type := text |}].

Lemma C2_move_swaps_witness :
  (2 <= length (fields three_field_state))%nat /\
  step three_field_state (MoveAt 0) =
    Some (with_fields three_field_state
            [{| label := "C"; value := ""; type := text |};
             {| label := "B"; value := ""; type := text |};
             {| label := "A"; value := ""; type := text |}], None) /\
  exists l', step three_field_state (MoveAt 0) = Some (with_fields three_field_state l', None) /\
             exchanged (fields three_field_state) l' 0 2.
Proof.
  split; [simpl; lia|]. split; [reflexivity|].
  apply (C2_move_swaps three_field_state). simpl; lia.
Defined.

(** C3: with a non-empty label [L], a default value [D] and a type [T]
    chosen among [INPUT_TYPES], the Add button appends exactly the
    descriptor [{label: L, value: D, type: T}] after the existing ones and
    resets the creator form to a blank label, a blank default value and an
    unset type (which the schema reads as ["text"]). *)
Lemma C3_add_appends (st : State) (L D : string) (T : input_type) :
  (0 < String.length L)%nat ->
  creator st = {| raw_label := Some L; raw_defaultValue := Some D;
                  raw_type := Some (input_type_name T) |} ->
  step st AddInput =
    Some ({| creator := creator_reset; creatorErrors := [];
             fields := fields st ++ [{| label := L; value := D; type := T |}];
             createdErrors := createdErrors st |}, None) /\
  creator_reset = {| raw_label := Some ""; raw_defaultValue := Some ""; raw_type := None |}.
Proof.
  intros HL Hc. split; [|reflexivity].
  unfold step, rendered, submitCreator, inputCreatorSchema. rewrite Hc. simpl.
  destruct (Nat.ltb_spec 0 (String.length L)); [|lia].
  destruct T; reflexivity.
Qed.

Definition age_creator_state : State :=
  with_creator init {| raw_label := Some "Age"; raw_defaultValue := Some "0";
                       raw_type := Some "number" |}.

Lemma C3_add_appends_witness :
  (0 < String.length "Age")%nat /\
  creator age_creator_state =
    {| raw_label := Some "Age"; raw_defaultValue := Some "0";
       raw_type := Some (input_type_name number) |} /\
  step age_creator_state AddInput =
    Some ({| creator := creator_reset; creatorErrors := [];
             fields := fields age_creator_state ++
                         [{| label := "Age"; value := "0"; type := number |}];
             createdErrors := createdErrors age_creator_state |}, None) /\
  creator_reset = {| raw_label := Some ""; raw_defaultValue := Some ""; raw_type := None |}.
Proof.
  split; [simpl; lia|]. split; [reflexivity|].
  apply (C3_add_appends age_creator_state "Age" "0" number); [simpl; lia|reflexivity].
Defined.

(** C4: the Add button with an undefined or empty label leaves the field
    list and the creator values untouched and reports an issue on the label
    field. *)
Lemma C4_empty_label_rejected (st : State) :
  raw_label (creator st) = None \/ raw_label (creator st) = Some "" ->
  exists st', step st AddInput = Some (st', None) /\
    fields st' = fields st /\ creator st' = creator st /\
    createdErrors st' = createdErrors st /\ In F_label (creatorErrors st').
Proof.
  intros Hl. unfold step, rendered, submitCreator, inputCreatorSchema.
  assert (E : string_min1 (raw_label (creator st)) = None)
    by (destruct Hl as [-> | ->]; reflexivity).
  rewrite E. eexists. split; [reflexivity|]. simpl.
  repeat split; [].
  destruct (match raw_type (creator st) with
            | Some s => parse_input_type s | None => Some text end);
    simpl; auto.
Qed.

Lemma C4_empty_label_rejected_witness :
  (raw_label (creator one_field_state) = None \/
   raw_label (creator one_field_state) = Some "") /\
  exists st', step one_field_state AddInput = Some (st', None) /\
    fields st' = fields one_field_state /\ creator st' = creator one_field_state /\
    createdErrors st' = createdErrors one_field_state /\ In F_label (creatorErrors st').
Proof.
  split; [right; reflexivity|].
  apply C4_empty_label_rejected. right; reflexivity.
Defined.

(** C5: the Remove button of row [i] (with [i < N]) yields the list of
    length [N-1] equal to the original with position [i] deleted; earlier
    elements keep their index and later ones shift down by one. *)
Lemma C5_remove_deletes (st : State) (i : nat) :
  (i < length (fields st))%nat ->
  exists l', step st (RemoveAt i) = Some (with_fields st l', None) /\
    l' = take i (fields st) ++ drop (S i) (fields st) /\
    length l' = (length (fields st) - 1)%nat /\
    (forall j, (j < i)%nat -> l' !! j = fields st !! j) /\
    (forall j, (i <= j)%nat -> l' !! j = fields st !! S j).
Proof.
  intros Hi. exists (delete i (fields st)). split.
  - unfold step, rendered. destruct (Nat.ltb_spec i (length (fields st))); [|lia].
    reflexivity.
  - split; [apply delete_take_drop|]. split.
    + apply length_delete. by apply lookup_lt_is_Some_2.
    + split; intros j Hj.
      * by apply list_lookup_delete_lt.
      * by apply list_lookup_delete_ge.
Qed.

Lemma C5_remove_deletes_witness :
  (1 < length (fields three_field_state))%nat /\
  step three_field_state (RemoveAt 1) =
    Some (with_fields three_field_state
            [{| label := "A"; value := ""; type := text |};
             {| label := "C"; value := ""; type := text |}], None) /\
  exists l', step three_field_state (RemoveAt 1) = Some (with_fields three_field_state l', None) /\
    l' = take 1 (fields three_field_state) ++ drop 2 (fields three_field_state) /\
    length l' = (length (fields three_field_state) - 1)%nat /\
    (forall j, (j < 1)%nat -> l' !! j = fields three_field_state !! j) /\
    (forall j, (1 <= j)%nat -> l' !! j = fields three_field_state !! S j).
Proof.
  split; [simpl; lia|]. split; [reflexivity|].
  apply C5_remove_deletes. simpl; lia.
Defined.

(** C6: on every reachable state, [handleSubmit(onCreatedFormSubmit)]
    hands to the toast the current field list in order, hence the same
    (label, value) pairs; this holds in particular when all values are
    non-empty.  The scenario "add Name, add Age with default 0 and type
    number, type Ada into Name, Submit" yields [Name: Ada, Age: 0]. *)
Lemma C6_submit_snapshot (st : State) :
  reachable st ->
  Forall (fun x => value x <> "") (fields st) ->
  (exists t, snd (submit st) = Some t /\ inputs (toast_data t) = fields st /\
     map (fun x => (label x, value x)) (inputs (toast_data t)) =
     map (fun x => (label x, value x)) (fields st)) /\
  (exists st' t,
     run init [SetLabel "Name"; AddInput;
               SetLabel "Age"; SetDefaultValue "0"; SetType number; AddInput;
               SetValue 0 "Ada"; SubmitCreated] = Some (st', [t]) /\
     map (fun x => (label x, value x)) (inputs (toast_data t)) =
       [("Name", "Ada"); ("Age", "0")] /\
     toast_body t = "Name: Ada, Age: 0").
Proof.
  intros Hr _. split.
  - rewrite (submit_ok st (reachable_labels st Hr)). simpl.
    eexists. split; [reflexivity|]. split; reflexivity.
  - do 2 eexists. split; [reflexivity|]. split; reflexivity.
Qed.

Definition ada_state : State :=
  {| creator := creator_reset; creatorErrors := [];
     fields := [{| label := "Name"; value := "Ada"; type := text |};
                {| label := "Age"; value := "0"; type := number |}];
     createdErrors := [] |}.

Lemma ada_state_reachable : reachable ada_state.
Proof.
  apply (run_reachable init
           [SetLabel "Name"; AddInput;
            SetLabel "Age"; SetDefaultValue "0"; SetType number; AddInput;
            SetValue 0 "Ada"] _ [] reach_init).
  reflexivity.
Qed.

Lemma C6_submit_snapshot_witness :
  reachable ada_state /\ Forall (fun x => value x <> "") (fields ada_state) /\
  exists t, snd (submit ada_state) = Some t /\ inputs (toast_data t) = fields ada_state /\
     map (fun x => (label x, value x)) (inputs (toast_data t)) =
     map (fun x => (label x, value x)) (fields ada_state).
Proof.
  assert (Hv : Forall (fun x => value x <> "") (fields ada_state)).
  { repeat constructor; discriminate. }
  split; [exact ada_state_reachable|]. split; [exact Hv|].
  apply (C6_submit_snapshot ada_state ada_state_reachable Hv).
Defined.

(** C7: the move button is rendered only when the field list has at least
    two rows; with exactly one row no move is rendered nor performed. *)
Lemma C7_no_move_single (st : State) (i : nat) :
  length (fields st) = 1%nat ->
  rendered st (MoveAt i) = false /\ step st (MoveAt i) = None /\
  (forall st0 j, rendered st0 (MoveAt j) = true -> (2 <= length (fields st0))%nat).
Proof.
  intros H1. unfold step. simpl. rewrite H1. simpl.
  split; [done|]. split; [done|].
  intros st0 j. simpl. rewrite andb_true_iff, !Nat.ltb_lt. lia.
Qed.

Lemma C7_no_move_single_witness :
  length (fields one_field_state) = 1%nat /\
  rendered one_field_state (MoveAt 0) = false /\ step one_field_state (MoveAt 0) = None /\
  (forall st0 j, rendered st0 (MoveAt j) = true -> (2 <= length (fields st0))%nat).
Proof.
  split; [reflexivity|]. apply C7_no_move_single. reflexivity.
Defined.

Lemma parse_input_type_name (t : input_type) :
  parse_input_type (input_type_name t) = Some t.
Proof. destruct t; reflexivity. Qed.

Lemma parse_input_type_Some (s : string) (t : input_type) :
  parse_input_type s = Some t -> s = input_type_name t.
Proof.
  unfold parse_input_type.
  destruct (String.eqb_spec s "text"); [intros [= <-]; done|].
  destruct (String.eqb_spec s "number"); [intros [= <-]; done|].
  destruct (String.eqb_spec s "email"); [intros [= <-]; done|].
  destruct (String.eqb_spec s "password"); [intros [= <-]; done|].
  discriminate.
Qed.

Lemma add_appends_parsed (st : State) (L : string) (t : input_type) :
  (0 < String.length L)%nat -> raw_label (creator st) = Some L ->
  match raw_type (creator st) with
  | Some s => parse_input_type s | None => Some text end = Some t ->
  step st AddInput =
    Some ({| creator := creator_reset; creatorErrors := [];
             fields := fields st ++
               [{| label := L; value := default "" (raw_defaultValue (creator st));
                   type := t |}];
             createdErrors := createdErrors st |}, None).
Proof.
  intros HL Hl Ht.
  unfold step, rendered, submitCreator, inputCreatorSchema. rewrite Hl, Ht.
  simpl. destruct (Nat.ltb_spec 0 (String.length L)); [reflexivity|lia].
Qed.

(** C8: with a non-empty label, an undefined default value makes the
    appended descriptor's value [""] whatever the type, and an undefined
    type makes it ["text"] whatever the default value; a given type is
    accepted exactly when it is one of the four names of [INPUT_TYPES], and
    is then kept. *)
Lemma C8_creator_defaults (st : State) (L : string) :
  (0 < String.length L)%nat ->
  raw_label (creator st) = Some L ->
  (forall t,
     raw_defaultValue (creator st) = None ->
     (raw_type (creator st) = None /\ t = text \/
      raw_type (creator st) = Some (input_type_name t)) ->
     step st AddInput =
       Some ({| creator := creator_reset; creatorErrors := [];
                fields := fields st ++ [{| label := L; value := ""; type := t |}];
                createdErrors := createdErrors st |}, None)) /\
  (raw_type (creator st) = None ->
     step st AddInput =
       Some ({| creator := creator_reset; creatorErrors := [];
                fields := fields st ++
                  [{| label := L; value := default "" (raw_defaultValue (creator st));
                      type := text |}];
                createdErrors := createdErrors st |}, None)) /\
  (forall d s,
     (exists data, inputCreatorSchema {| raw_label := Some L; raw_defaultValue := d;
                                         raw_type := Some s |} = inl data) <->
     In s (map input_type_name INPUT_TYPES)) /\
  (forall d s data,
     inputCreatorSchema {| raw_label := Some L; raw_defaultValue := d;
                           raw_type := Some s |} = inl data ->
     input_type_name (type_in data) = s).
Proof.
  intros HL Hl.
  assert (EL : string_min1 (Some L) = Some L).
  { simpl. destruct (Nat.ltb_spec 0 (String.length L)); [done|lia]. }
  split; [|split; [|split]].
  - intros t Hd Ht.
    rewrite (add_appends_parsed st L t HL Hl), Hd; [reflexivity|].
    destruct Ht as [[Ht Et] | Ht]; rewrite Ht; [by subst t | apply parse_input_type_name].
  - intros Ht. apply (add_appends_parsed st L text HL Hl). by rewrite Ht.
  - intros d s. unfold inputCreatorSchema. cbn beta iota zeta delta [raw_label raw_type]. rewrite EL.
    split.
    + intros [data E]. destruct (parse_input_type s) as [t|] eqn:Et; [|discriminate].
      rewrite (parse_input_type_Some _ _ Et). destruct t; simpl; tauto.
    + intros Hin.
      assert (Hs : exists t, s = input_type_name t).
      { simpl in Hin.
        destruct Hin as [<-|[<-|[<-|[<-|[]]]]];
          [exists text|exists number|exists email|exists password]; done. }
      destruct Hs as [t ->]. rewrite parse_input_type_name. eexists; reflexivity.
  - intros d s data. unfold inputCreatorSchema. cbn beta iota zeta delta [raw_label raw_type]. rewrite EL.
    destruct (parse_input_type s) as [t|] eqn:Et; [|discriminate].
    intros [= <-]. simpl. symmetry. by apply parse_input_type_Some.
Qed.

(** Label "Name" typed and type "number" chosen, default value untouched. *)
Definition name_number_state : State :=
  with_creator init {| raw_label := Some "Name"; raw_defaultValue := None;
                       raw_type := Some "number" |}.

Lemma name_number_state_reachable : reachable name_number_state.
Proof.
  apply (run_reachable init [SetLabel "Name"; SetType number] _ [] reach_init).
  reflexivity.
Qed.

Lemma C8_creator_defaults_witness :
  reachable name_number_state /\
  (0 < String.length "Name")%nat /\
  raw_label (creator name_number_state) = Some "Name" /\
  step name_number_state AddInput =
    Some ({| creator := creator_reset; creatorErrors := [];
             fields := fields name_number_state ++
                         [{| label := "Name"; value := ""; type := number |}];
             createdErrors := createdErrors name_number_state |}, None).
Proof.
  split; [exact name_number_state_reachable|].
  split; [simpl; lia|]. split; [reflexivity|].
  destruct (C8_creator_defaults name_number_state "Name") as (H1 & _);
    [simpl; lia|reflexivity|].
  apply H1; [reflexivity|right; reflexivity].
Defined.

(** C10: the Submit button is rendered exactly when the field list is
    non-empty; on an empty field list no event produces a toast. *)
Lemma C10_no_submit_when_empty (st : State) :
  fields st = [] ->
  rendered st SubmitCreated = false /\
  (forall e st' o, step st e = Some (st', o) -> o = None) /\
  (forall st0, rendered st0 SubmitCreated = true <-> fields st0 <> []).
Proof.
  intros Hnil. split; [|split].
  - unfold rendered. by rewrite Hnil.
  - intros e st' o. unfold step, rendered. rewrite Hnil. simpl.
    destruct e; simpl; try discriminate; intros [= _ <-]; done.
  - intros st0. unfold rendered. destruct (fields st0); simpl; split; done.
Qed.

Lemma C10_no_submit_when_empty_witness :
  fields init = [] /\
  rendered init SubmitCreated = false /\
  (forall e st' o, step init e = Some (st', o) -> o = None) /\
  (forall st0, rendered st0 SubmitCreated = true <-> fields st0 <> []).
Proof.
  split; [reflexivity|]. apply C10_no_submit_when_empty. reflexivity.
Defined.

(** ** Further properties of the page *)

Lemma string_app_cons (ch : Ascii.ascii) (a b : string) :
  (String ch a ++ b)%string = String ch (a ++ b).
Proof. reflexivity. Qed.

Lemma string_app_nil_l (b : string) : ("" ++ b)%string = b.
Proof. reflexivity. Qed.

Lemma string_app_nil_r (a : string) : (a ++ "")%string = a.
Proof.
  induction a as [|ch a IH]; [reflexivity|]. rewrite string_app_cons. by rewrite IH.
Qed.

Lemma string_app_assoc (a b c : string) :
  ((a ++ b) ++ c)%string = (a ++ (b ++ c))%string.
Proof.
  induction a as [|ch a IH]; [reflexivity|].
  rewrite !string_app_cons. by rewrite IH.
Qed.

Lemma string_min1_None (v : option string) :
  string_min1 v = None <-> v = None \/ v = Some "".
Proof.
  destruct v as [s|]; simpl; [|tauto].
  destruct (Nat.ltb_spec 0 (String.length s)) as [H|H].
  - split; [discriminate|]. intros [?|[= ->]]; [discriminate|]. simpl in H. lia.
  - split; [|done]. intros _. right. f_equal. apply string_length_0. lia.
Qed.

Lemma swap_Some (l l' : list Input) (a b : nat) :
  swap l a b = Some l' ->
  (a < length l)%nat /\ (b < length l)%nat /\ exchanged l l' a b.
Proof.
  intros E.
  assert (Ha : (a < length l)%nat /\ (b < length l)%nat).
  { unfold swap in E.
    destruct (l !! a) eqn:Ea; [|discriminate].
    destruct (l !! b) eqn:Eb; [|discriminate].
    split; eapply lookup_lt_Some; eauto. }
  destruct Ha as [Ha Hb]. split; [done|]. split; [done|].
  destruct (swap_exchanged l a b Ha Hb) as (l'' & E' & Hx).
  rewrite E in E'. by inversion E'; subst.
Qed.

Lemma exchanged_twice (l l' l'' : list Input) (a b : nat) :
  exchanged l l' a b -> exchanged l' l'' a b -> l'' = l.
Proof.
  intros (Hl1 & Ha1 & Hb1 & Ho1) (Hl2 & Ha2 & Hb2 & Ho2).
  apply list_eq. intros j.
  destruct (decide (j = a)) as [->|Hja].
  - by rewrite Ha2, Hb1.
  - destruct (decide (j = b)) as [->|Hjb].
    + by rewrite Hb2, Ha1.
    + by rewrite Ho2, Ho1.
Qed.

Lemma with_fields_same (st : State) : with_fields st (fields st) = st.
Proof. by destruct st. Qed.

Lemma step_created_errors (st st' : State) (e : event) (o : option Toast) :
  Forall label_ok (fields st) -> createdErrors st = [] ->
  step st e = Some (st', o) -> createdErrors st' = [].
Proof.
  intros Hl He. unfold step. destruct (rendered st e); [|discriminate].
  destruct e; simpl; try (intros [= <- _]; simpl; done).
  - intros [= <- _]. unfold submitCreator.
    destruct (inputCreatorSchema (creator st)); done.
  - destruct (swap _ _ _); [|discriminate]. intros [= <- _]. done.
  - rewrite (submit_ok st Hl). intros [= <- _]. done.
Qed.

Definition type_ok (v : option string) : Prop :=
  v = None \/ exists t, v = Some (input_type_name t).

Lemma step_type_ok (st st' : State) (e : event) (o : option Toast) :
  type_ok (raw_type (creator st)) -> step st e = Some (st', o) ->
  type_ok (raw_type (creator st')).
Proof.
  intros Ht. unfold step. destruct (rendered st e); [|discriminate].
  destruct e; simpl; try (intros [= <- _]; simpl; done).
  - intros [= <- _]. right. eauto.
  - intros [= <- _]. unfold submitCreator.
    destruct (inputCreatorSchema (creator st)); simpl; [left|]; done.
  - destruct (swap _ _ _); [|discriminate]. intros [= <- _]. done.
  - unfold submit. destruct (createdFormSchema _); intros [= <- _]; done.
Qed.

Lemma reachable_type_ok (st : State) :
  reachable st -> type_ok (raw_type (creator st)).
Proof.
  induction 1 as [|st e st' o _ IH Hs].
  - right. exists text. reflexivity.
  - exact (step_type_ok _ _ _ _ IH Hs).
Qed.

Lemma type_ok_parse (v : option string) :
  type_ok v ->
  exists t, match v with Some s => parse_input_type s | None => Some text end = Some t.
Proof.
  intros [->|[t ->]]; [by exists text|]. exists t. apply parse_input_type_name.
Qed.

Lemma format_from_snoc (b : bool) (l : list Input) (x : Input) :
  format_from b (l ++ [x]) =
  (format_from b l ++
   (if b && bool_decide (l = []) then "" else ", ") ++ label x ++ ": " ++ value x)%string.
Proof.
  revert b. induction l as [|y r IH]; intros b; simpl.
  - destruct b; simpl; rewrite string_app_nil_l, ?string_app_nil_r; reflexivity.
  - rewrite IH, andb_false_r, !string_app_assoc. reflexivity.
Qed.

(** X1: a move never loses, duplicates or alters a descriptor: the field
    list after any move is a permutation of the one before, and the move
    touches nothing else of the page state and shows no toast. *)
Lemma X1_move_permutation (st st' : State) (i : nat) (o : option Toast) :
  step st (MoveAt i) = Some (st', o) ->
  fields st' ≡ₚ fields st /\ o = None /\ creator st' = creator st /\
  creatorErrors st' = creatorErrors st /\ createdErrors st' = createdErrors st.
Proof.
  unfold step. destruct (rendered st (MoveAt i)); [|discriminate].
  destruct (swap _ _ _) as [l|] eqn:E; [|discriminate].
  intros [= <- <-]. simpl. repeat split; [].
  set (t := move_target (length (fields st)) i) in E. unfold swap in E.
  destruct (fields st !! i) as [x|] eqn:Ex; [|discriminate].
  destruct (fields st !! t) as [y|] eqn:Ey; [|discriminate].
  inversion E; subst. by apply Permutation_insert_swap.
Qed.

Lemma X1_move_permutation_witness :
  step three_field_state (MoveAt 1) =
    Some (with_fields three_field_state
            [{| label := "B"; value := ""; type := text |};
             {| label := "A"; value := ""; type := text |};
             {| label := "C"; value := ""; type := text |}], None) /\
  fields (with_fields three_field_state
            [{| label := "B"; value := ""; type := text |};
             {| label := "A"; value := ""; type := text |};
             {| label := "C"; value := ""; type := text |}]) ≡ₚ fields three_field_state.
Proof.
  split; [reflexivity|].
  apply (X1_move_permutation three_field_state _ 1 None). reflexivity.
Defined.

(** X2: pressing the same row's move button twice restores the page state
    (both the wrap-around move of row 0 and the move up of row k). *)
Lemma X2_move_twice_restores (st st1 : State) (i : nat) (o : option Toast) :
  step st (MoveAt i) = Some (st1, o) -> step st1 (MoveAt i) = Some (st, None).
Proof.
  unfold step. destruct (rendered st (MoveAt i)) eqn:R; [|discriminate].
  destruct (swap _ _ _) as [l'|] eqn:E; [|discriminate].
  intros [= <- _].
  apply swap_Some in E as (Ha & Hb & Hx).
  assert (Hlen : length l' = length (fields st)) by apply Hx.
  unfold rendered in *. simpl. rewrite Hlen, R.
  destruct (swap_exchanged l' i (move_target (length (fields st)) i)) as (l'' & E' & Hx');
    [by rewrite Hlen|by rewrite Hlen|].
  rewrite E'. rewrite (exchanged_twice _ _ _ _ _ Hx Hx').
  unfold with_fields. simpl. by destruct st.
Qed.

Lemma X2_move_twice_restores_witness :
  step three_field_state (MoveAt 0) =
    Some (with_fields three_field_state
            [{| label := "C"; value := ""; type := text |};
             {| label := "B"; value := ""; type := text |};
             {| label := "A"; value := ""; type := text |}], None) /\
  step (with_fields three_field_state
            [{| label := "C"; value := ""; type := text |};
             {| label := "B"; value := ""; type := text |};
             {| label := "A"; value := ""; type := text |}]) (MoveAt 0) =
    Some (three_field_state, None).
Proof.
  split; [reflexivity|].
  apply (X2_move_twice_restores three_field_state _ 0 None). reflexivity.
Defined.

(** X3: typing [s] into the input of row [i] replaces only that row's
    value: its label and type, the other rows and the length are kept. *)
Lemma X3_set_value_row (st : State) (i : nat) (s : string) :
  (i < length (fields st))%nat ->
  exists x l', fields st !! i = Some x /\
    step st (SetValue i s) = Some (with_fields st l', None) /\
    l' !! i = Some {| label := label x; value := s; type := type x |} /\
    length l' = length (fields st) /\
    (forall j, j <> i -> l' !! j = fields st !! j).
Proof.
  intros Hi. destruct (lookup_lt_is_Some_2 _ _ Hi) as [x Ex].
  exists x, (<[i:={| label := label x; value := s; type := type x |}]> (fields st)).
  split; [done|]. split.
  - unfold step, rendered. destruct (Nat.ltb_spec i (length (fields st))); [|lia].
    simpl. unfold updateValue. by rewrite Ex.
  - split; [by apply list_lookup_insert_eq|]. split; [apply length_insert|].
    intros j Hj. by apply list_lookup_insert_ne.
Qed.

Lemma X3_set_value_row_witness :
  (0 < length (fields one_field_state))%nat /\
  exists x l', fields one_field_state !! 0 = Some x /\
    step one_field_state (SetValue 0 "Ada") = Some (with_fields one_field_state l', None) /\
    l' !! 0 = Some {| label := label x; value := "Ada"; type := type x |} /\
    length l' = length (fields one_field_state) /\
    (forall j, j <> 0 -> l' !! j = fields one_field_state !! j).
Proof.
  split; [simpl; lia|]. apply X3_set_value_row. simpl; lia.
Defined.

(** X4: in every reachable state each descriptor has a non-empty label:
    the creator only appends labels that passed [z.string().min(1)], and
    editing, removing and moving rows never change a label. *)
Lemma X4_reachable_labels_nonempty (st : State) :
  reachable st -> forall x, In x (fields st) -> label x <> "".
Proof.
  intros Hr x Hx Hl. pose proof (reachable_labels st Hr) as H.
  rewrite List.Forall_forall in H. specialize (H x Hx). unfold label_ok in H.
  rewrite Hl in H. simpl in H. lia.
Qed.

Lemma X4_reachable_labels_nonempty_witness :
  reachable ada_state /\
  forall x, In x (fields ada_state) -> label x <> "".
Proof.
  split; [exact ada_state_reachable|].
  apply X4_reachable_labels_nonempty. exact ada_state_reachable.
Defined.

(** X5: in every reachable state the created form carries no validation
    error: its only check (non-empty label) never fails on a reachable
    field list, so no inline error message is ever shown under a row. *)
Lemma X5_no_created_errors (st : State) :
  reachable st -> createdErrors st = [].
Proof.
  intros Hr. induction Hr as [|st e st' o Hr IH Hs]; [reflexivity|].
  exact (step_created_errors _ _ _ _ (reachable_labels st Hr) IH Hs).
Qed.

Lemma X5_no_created_errors_witness :
  reachable ada_state /\ createdErrors ada_state = [].
Proof.
  split; [exact ada_state_reachable|]. apply X5_no_created_errors.
  exact ada_state_reachable.
Defined.

(** X6: when [inputCreatorSchema] rejects the creator values, the issue
    list is non-empty, never names the default value field, names the label
    exactly when the label is undefined or empty, and names the type exactly
    when a type string outside [INPUT_TYPES] was given. *)
Lemma X6_creator_issues (v : InputCreatorValues) (es : list creator_field) :
  inputCreatorSchema v = inr es ->
  es <> [] /\ ~ In F_defaultValue es /\
  (In F_label es <-> raw_label v = None \/ raw_label v = Some "") /\
  (In F_type es <-> exists s, raw_type v = Some s /\ parse_input_type s = None).
Proof.
  unfold inputCreatorSchema. rewrite <- string_min1_None.
  assert (Ht : (match raw_type v with Some s => parse_input_type s | None => Some text end
                = None) <-> exists s, raw_type v = Some s /\ parse_input_type s = None).
  { destruct (raw_type v) as [s|]; split.
    - intros H. by exists s.
    - by intros (s' & [= <-] & H).
    - discriminate.
    - by intros (s' & ? & _). }
  rewrite <- Ht. clear Ht.
  destruct (string_min1 (raw_label v)) as [l|];
    destruct (match raw_type v with Some s => parse_input_type s | None => Some text end)
      as [t|];
    intros E; inversion E; subst; clear E; simpl.
  - split; [discriminate|]. split; [intuition discriminate|].
    split; split; intuition discriminate.
  - split; [discriminate|]. split; [intuition discriminate|].
    split; split; intuition discriminate.
  - split; [discriminate|]. split; [intuition discriminate|].
    split; split; intuition discriminate.
Qed.

Lemma X6_creator_issues_witness :
  inputCreatorSchema {| raw_label := Some ""; raw_defaultValue := None;
                        raw_type := Some "color" |} = inr [F_label; F_type] /\
  [F_label; F_type] <> [] /\ ~ In F_defaultValue [F_label; F_type] /\
  (In F_label [F_label; F_type] <-> Some "" = @None string \/ Some "" = Some "") /\
  (In F_type [F_label; F_type] <->
     exists s, Some "color" = Some s /\ parse_input_type s = None).
Proof.
  split; [reflexivity|].
  apply (X6_creator_issues {| raw_label := Some ""; raw_defaultValue := None;
                              raw_type := Some "color" |}). reflexivity.
Defined.

(** X7: in every reachable state the creator's type value is unset or one
    of the names of [INPUT_TYPES] (the radio group offers nothing else), so
    the Add button never reports a type issue: the type check of
    [inputCreatorSchema] is defensive only. *)
Lemma X7_add_no_type_issue (st st' : State) (o : option Toast) :
  reachable st -> step st AddInput = Some (st', o) ->
  (raw_type (creator st) = None \/
   exists t, raw_type (creator st) = Some (input_type_name t)) /\
  ~ In F_type (creatorErrors st').
Proof.
  intros Hr Hs. pose proof (reachable_type_ok st Hr) as Hok.
  split; [exact Hok|].
  destruct (type_ok_parse _ Hok) as [t Ht].
  unfold step in Hs. simpl in Hs. injection Hs as <- _.
  unfold submitCreator, inputCreatorSchema. rewrite Ht.
  destruct (string_min1 (raw_label (creator st))); simpl; [tauto|].
  intros [H|[]]. discriminate.
Qed.

Lemma X7_add_no_type_issue_witness :
  reachable ada_state /\ step ada_state AddInput = Some (with_creator
    {| creator := creator_reset; creatorErrors := [F_label];
       fields := fields ada_state; createdErrors := [] |} creator_reset, None) /\
  (raw_type (creator ada_state) = None \/
   exists t, raw_type (creator ada_state) = Some (input_type_name t)) /\
  ~ In F_type (creatorErrors (with_creator
    {| creator := creator_reset; creatorErrors := [F_label];
       fields := fields ada_state; createdErrors := [] |} creator_reset)).
Proof.
  split; [exact ada_state_reachable|]. split; [reflexivity|].
  apply (X7_add_no_type_issue ada_state _ None ada_state_reachable). reflexivity.
Defined.

(** X8: from any reachable state, typing a non-empty label and pressing
    Add always succeeds, whatever happened before (for instance a rejected
    Add): one row labelled [L] with the current default value (or [""]) is
    appended, the creator issues are cleared and the creator form is reset. *)
Lemma X8_add_recovers (st : State) (L : string) :
  reachable st -> (0 < String.length L)%nat ->
  exists st' t,
    run st [SetLabel L; AddInput] = Some (st', []) /\
    fields st' = fields st ++
      [{| label := L; value := default "" (raw_defaultValue (creator st)); type := t |}] /\
    creatorErrors st' = [] /\ creator st' = creator_reset.
Proof.
  intros Hr HL. destruct (reachable_type_ok st Hr) as [Ht|[t Ht]];
    unfold run, step, submitCreator, inputCreatorSchema; simpl; rewrite Ht;
    destruct (Nat.ltb_spec 0 (String.length L)); try lia.
  - do 2 eexists. split; [reflexivity|]. simpl. auto.
  - rewrite parse_input_type_name. do 2 eexists. split; [reflexivity|]. simpl. auto.
Qed.

Lemma X8_add_recovers_witness :
  reachable ada_state /\ (0 < String.length "Email")%nat /\
  exists st' t,
    run ada_state [SetLabel "Email"; AddInput] = Some (st', []) /\
    fields st' = fields ada_state ++
      [{| label := "Email"; value := default "" (raw_defaultValue (creator ada_state));
          type := t |}] /\
    creatorErrors st' = [] /\ creator st' = creator_reset.
Proof.
  split; [exact ada_state_reachable|]. split; [simpl; lia|].
  apply X8_add_recovers; [exact ada_state_reachable|simpl; lia].
Defined.

Lemma createdFormSchema_inl (v d : CreatedFormFields) :
  createdFormSchema v = inl d -> d = v.
Proof. unfold createdFormSchema. destruct (created_issues 0 (inputs v)); congruence. Qed.

(** X9: only the Submit button of the created form ever shows a toast, and
    that toast carries exactly the current field list; submitting changes
    neither the field list nor the creator form. *)
Lemma X9_only_submit_toasts (st st' : State) (e : event) (t : Toast) :
  step st e = Some (st', Some t) ->
  e = SubmitCreated /\ fields st' = fields st /\ creator st' = creator st /\
  t = onCreatedFormSubmit {| inputs := fields st |}.
Proof.
  unfold step. destruct (rendered st e); [|discriminate].
  destruct e; try discriminate.
  - destruct (swap _ _ _); discriminate.
  - unfold submit. destruct (createdFormSchema _) as [d|es] eqn:E; [|discriminate].
    apply createdFormSchema_inl in E. subst d. intros [= <- <-]. done.
Qed.

Lemma X9_only_submit_toasts_witness :
  step ada_state SubmitCreated =
    Some (ada_state, Some (onCreatedFormSubmit {| inputs := fields ada_state |})) /\
  SubmitCreated = SubmitCreated /\ fields ada_state = fields ada_state /\
  creator ada_state = creator ada_state /\
  onCreatedFormSubmit {| inputs := fields ada_state |} =
    onCreatedFormSubmit {| inputs := fields ada_state |}.
Proof.
  split; [reflexivity|].
  apply (X9_only_submit_toasts ada_state ada_state SubmitCreated). reflexivity.
Defined.

(** X10: [formatCreatedFormData] of [""] is empty, and appending a row to a
    non-empty list appends [", label: value"] to the text: the answers
    appear in list order separated by [", "]. *)
Lemma X10_format_snoc (l : list Input) (x : Input) :
  l <> [] ->
  formatCreatedFormData {| inputs := l ++ [x] |} =
    (formatCreatedFormData {| inputs := l |} ++ ", " ++ label x ++ ": " ++ value x)%string /\
  formatCreatedFormData {| inputs := [] |} = "" /\
  formatCreatedFormData {| inputs := [x] |} = (label x ++ ": " ++ value x)%string.
Proof.
  intros Hl. unfold formatCreatedFormData. simpl inputs.
  split; [|split; [reflexivity|]].
  - rewrite format_from_snoc. rewrite bool_decide_false by done. reflexivity.
  - simpl. rewrite string_app_nil_l, string_app_nil_r. reflexivity.
Qed.

Lemma X10_format_snoc_witness :
  [{| label := "Name"; value := "Ada"; type := text |}] <> [] /\
  formatCreatedFormData
    {| inputs := [{| label := "Name"; value := "Ada"; type := text |}] ++
                 [{| label := "Age"; value := "0"; type := number |}] |} =
    (formatCreatedFormData {| inputs := [{| label := "Name"; value := "Ada"; type := text |}] |}
       ++ ", " ++ "Age" ++ ": " ++ "0")%string.
Proof.
  split; [discriminate|].
  apply (X10_format_snoc [{| label := "Name"; value := "Ada"; type := text |}]
                         {| label := "Age"; value := "0"; type := number |}).
  discriminate.
Defined.

(** X11: the button captions match what the move does to the row's own
    descriptor: the row-0 button reads "Move down" and carries it to the
    last row; every other row's button reads "Move up" and carries it one
    row up. *)
Lemma X11_move_caption (st : State) (i : nat) :
  rendered st (MoveAt i) = true ->
  exists x l', fields st !! i = Some x /\
    step st (MoveAt i) = Some (with_fields st l', None) /\
    ((i = 0%nat /\ move_caption i = "Move down" /\
      l' !! (length (fields st) - 1)%nat = Some x) \/
     ((0 < i)%nat /\ move_caption i = "Move up" /\ l' !! (i - 1)%nat = Some x)).
Proof.
  intros R. pose proof R as R'. unfold rendered in R'.
  apply andb_true_iff in R' as [H1 H2]. apply Nat.ltb_lt in H1, H2.
  set (t := move_target (length (fields st)) i).
  assert (Ht : (t < length (fields st))%nat)
    by (unfold t, move_target; destruct (Nat.eqb_spec i 0); lia).
  destruct (lookup_lt_is_Some_2 _ _ H2) as [x Ex].
  destruct (swap_exchanged (fields st) i t H2 Ht) as (l' & E & _ & _ & Hb & _).
  exists x, l'. split; [done|]. split.
  - unfold step. rewrite R. fold t. by rewrite E.
  - unfold move_caption. rewrite Ex in Hb. unfold t, move_target in Hb.
    destruct (Nat.eqb_spec i 0) as [->|Hi].
    + left. done.
    + right. split; [lia|]. done.
Qed.

Lemma X11_move_caption_witness :
  rendered three_field_state (MoveAt 2) = true /\
  exists x l', fields three_field_state !! 2 = Some x /\
    step three_field_state (MoveAt 2) = Some (with_fields three_field_state l', None) /\
    ((2 = 0%nat /\ move_caption 2 = "Move down" /\
      l' !! (length (fields three_field_state) - 1)%nat = Some x) \/
     ((0 < 2)%nat /\ move_caption 2 = "Move up" /\ l' !! (2 - 1)%nat = Some x)).
Proof.
  split; [reflexivity|]. apply X11_move_caption. reflexivity.
Defined.

Lemma toUpperCase_char_not_lower (c : Ascii.ascii) :
  let n := Ascii.nat_of_ascii (toUpperCase_char c) in
  ~ (97 <= n <= 122)%nat.
Proof.
  unfold toUpperCase_char. cbv zeta.
  pose proof (Ascii.nat_ascii_bounded c) as Hb.
  destruct (Nat.leb_spec 97 (Ascii.nat_of_ascii c));
    destruct (Nat.leb_spec (Ascii.nat_of_ascii c) 122); cbn [andb]; try lia.
  rewrite Ascii.nat_ascii_embedding by lia. lia.
Qed.

Lemma toUpperCase_char_idem (c : Ascii.ascii) :
  toUpperCase_char (toUpperCase_char c) = toUpperCase_char c.
Proof.
  pose proof (toUpperCase_char_not_lower c) as H. simpl in H.
  unfold toUpperCase_char at 1.
  destruct (Nat.leb_spec 97 (Ascii.nat_of_ascii (toUpperCase_char c)));
    destruct (Nat.leb_spec (Ascii.nat_of_ascii (toUpperCase_char c)) 122);
    simpl; try reflexivity; lia.
Qed.

(** X12: on ASCII text [capitalizeFirstLetter] keeps the length and every
    character after the first, leaves the first character no lowercase
    letter (and unchanged when it was not one), maps [""] to [""], and is
    idempotent. *)
Lemma X12_capitalize (s : string) :
  is_ascii s = true ->
  String.length (capitalizeFirstLetter s) = String.length s /\
  capitalizeFirstLetter (capitalizeFirstLetter s) = capitalizeFirstLetter s /\
  (s = "" -> capitalizeFirstLetter s = "") /\
  (forall c r, s = String c r ->
     exists c', capitalizeFirstLetter s = String c' r /\
       ~ (97 <= Ascii.nat_of_ascii c' <= 122)%nat /\
       (~ (97 <= Ascii.nat_of_ascii c <= 122)%nat -> c' = c)).
Proof.
  intros _. destruct s as [|c r]; simpl.
  - repeat split; intros c r [=].
  - split; [done|]. split; [by rewrite toUpperCase_char_idem|].
    split; [discriminate|]. intros c0 r0 [= <- <-].
    exists (toUpperCase_char c). split; [done|]. split.
    + apply toUpperCase_char_not_lower.
    + intros Hn. unfold toUpperCase_char.
      destruct (Nat.leb_spec 97 (Ascii.nat_of_ascii c));
        destruct (Nat.leb_spec (Ascii.nat_of_ascii c) 122); simpl; try reflexivity; lia.
Qed.

Lemma X12_capitalize_witness :
  is_ascii "email" = true /\ capitalizeFirstLetter "email" = "Email" /\
  String.length (capitalizeFirstLetter "email") = String.length "email" /\
  capitalizeFirstLetter (capitalizeFirstLetter "email") = capitalizeFirstLetter "email".
Proof.
  split; [reflexivity|]. split; [reflexivity|].
  destruct (X12_capitalize "email" eq_refl) as (H1 & H2 & _). split; assumption.
Defined.
